(** * Remote buzzer activation over ESP-NOW: receiver and transmitter sketches

    A shallow embedding of the two Arduino sketches of the repository:

    - [Receiver]: [Remote-Buzzer-Activation/ESPReciever/ESPReciever.ino], the
      broadcast slave that registers unknown masters and drives a buzzer for
      [BUZZER_DURATION] milliseconds;
    - [Transmitter]: the broadcast master that sends one message per button
      press and then holds for 250 ms.

    Hardware and library calls are inputs of the model: every [millis()]
    reading, every [digitalRead] sample and every answer of the ESP-NOW
    library ([add()], [send()]) is an argument of the function that consumes
    it, and the effects on the pin and on the radio are fields of the state or
    of the returned effect record. *)

From Stdlib Require Import ZArith List Bool Lia Strings.Byte String Ascii.
From Stdlib Require Import DecimalString.
From Stdlib Require DecimalFacts DecimalPos DecimalN Nnat.
Import ListNotations.

Local Open Scope Z_scope.

(** ** Shared platform model *)

(** Digital pin levels ([HIGH] and [LOW] of Arduino.h). *)
Inductive level : Type := LOW | HIGH.

Definition level_eqb (a b : level) : bool :=
  match a, b with
  | LOW, LOW | HIGH, HIGH => true
  | _, _ => false
  end.

(** [unsigned long] and [uint32_t] are 32 bits wide on the ESP32: arithmetic
    on them is arithmetic modulo [2^32]. *)
Definition ULONG_RANGE : Z := 2 ^ 32.

Definition u32 (z : Z) : Z := z mod ULONG_RANGE.

(** A 6-byte hardware address ([uint8_t addr[6]]). *)
Record mac : Type := Mac {
  mac0 : byte; mac1 : byte; mac2 : byte;
  mac3 : byte; mac4 : byte; mac5 : byte
}.

Definition mac_bytes (a : mac) : list byte :=
  [mac0 a; mac1 a; mac2 a; mac3 a; mac4 a; mac5 a].

(** [memcmp]: the difference of the first pair of bytes that differ among the
    first [n], zero when there is none.  The callers only pass buffers of at
    least [n] bytes; the two last cases are never reached by them. *)
Fixpoint memcmp (a b : list byte) (n : nat) : Z :=
  match n with
  | O => 0
  | S k =>
      match a, b with
      | x :: a', y :: b' =>
          if Byte.eqb x y then memcmp a' b' k
          else Z.of_N (Byte.to_N x) - Z.of_N (Byte.to_N y)
      | _, _ => 0
      end
  end.

(** Modelled from the spec: [ESP_NOW.BROADCAST_ADDR], declared by the ESP32_NOW
    library and not by the sketches, is the "fixed all-bits-set broadcast
    sentinel" ff:ff:ff:ff:ff:ff. *)
Definition BROADCAST_ADDR : mac := Mac xff xff xff xff xff xff.

Definition ESPNOW_WIFI_CHANNEL : Z := 6.

Inductive wifi_interface_t : Type := WIFI_IF_STA | WIFI_IF_AP.

(** What an [ESP_NOW_Peer] object holds: the constructor arguments. *)
Record Peer : Type := {
  peer_addr : mac;
  peer_channel : Z;
  peer_iface : wifi_interface_t;
  peer_lmk : option (list byte)
}.

(** The fields of [esp_now_recv_info_t] the sketches read. *)
Record esp_now_recv_info_t : Type := {
  src_addr : mac;
  des_addr : mac
}.

(** Byte-exact address equality, as the sketches test it. *)
Definition mac_eqb (a b : mac) : bool :=
  memcmp (mac_bytes a) (mac_bytes b) 6 =? 0.

(** ** The receiver: ESPReciever.ino *)

Module Receiver.

Definition BUZZER_PIN : Z := 10.
Definition BUZZER_DURATION : Z := 1000.

(** The globals of the sketch, the level driven on [BUZZER_PIN], the static
    [last_debug] of [loop], and the peer table the ESP-NOW library keeps
    ([ESP_NOW_Peer::add] enters a peer there when it succeeds). *)
Record State : Type := {
  buzzer_timer : Z;
  buzzer_active : bool;
  masters : list Peer;
  buzzer_pin : level;
  last_debug : Z;
  esp_now_peers : list Peer
}.

(** [ESP_NOW_Peer_Class::add_peer], lines 43-49.  [accepted] is the answer of
    the library's [add()]: the peer is in the library's table afterwards
    exactly when it is [true]. *)
Definition add_peer (accepted : bool) (p : Peer) (st : State) : bool * State :=
  if negb accepted then (false, st)
  else (true,
        {| buzzer_timer := buzzer_timer st;
           buzzer_active := buzzer_active st;
           masters := masters st;
           buzzer_pin := buzzer_pin st;
           last_debug := last_debug st;
           esp_now_peers := esp_now_peers st ++ [p] |}).

(** [ESP_NOW_Peer_Class::onReceive], lines 52-61.  [now] is the reading of
    [millis()] on line 59. *)
Definition onReceive (data : list byte) (len : Z) (broadcast : bool)
    (now : Z) (st : State) : State :=
  {| buzzer_timer := now;
     buzzer_active := true;
     masters := masters st;
     buzzer_pin := HIGH;
     last_debug := last_debug st;
     esp_now_peers := esp_now_peers st |}.

(** [register_new_master], lines 67-101.  [accepted] is the library's answer
    to the [add()] of line 79 and [now] the reading of [millis()] on line 93. *)
Definition register_new_master (info : esp_now_recv_info_t)
    (data : list byte) (len : Z) (accepted : bool) (now : Z)
    (st : State) : State :=
  if memcmp (mac_bytes (des_addr info)) (mac_bytes BROADCAST_ADDR) 6 =? 0 then
    let new_master :=
      {| peer_addr := src_addr info;
         peer_channel := ESPNOW_WIFI_CHANNEL;
         peer_iface := WIFI_IF_STA;
         peer_lmk := None |} in
    let (ok, st1) := add_peer accepted new_master st in
    if negb ok then st1
    else
      {| buzzer_timer := now;
         buzzer_active := true;
         masters := masters st1 ++ [new_master];
         buzzer_pin := HIGH;
         last_debug := last_debug st1;
         esp_now_peers := esp_now_peers st1 |}
  else st.

(** The globals after [setup], lines 23-29 and 105-142. *)
Definition setup : State :=
  {| buzzer_timer := 0;
     buzzer_active := false;
     masters := [];
     buzzer_pin := LOW;
     last_debug := 0;
     esp_now_peers := [] |}.

(** The test of line 147, [millis() - buzzer_timer > BUZZER_DURATION], on
    [unsigned long]: the difference wraps and the [int] constant is converted
    to [unsigned long]. *)
Definition timed_out (duration now timer : Z) : bool :=
  u32 duration <? u32 (now - timer).

(** [loop], lines 144-162.  [now], [now_dbg] and [now_set] are the readings of
    [millis()] on lines 147, 155 and 156. *)
Definition loop (now now_dbg now_set : Z) (st : State) : State :=
  let st1 :=
    if buzzer_active st && timed_out BUZZER_DURATION now (buzzer_timer st) then
      {| buzzer_timer := buzzer_timer st;
         buzzer_active := false;
         masters := masters st;
         buzzer_pin := LOW;
         last_debug := last_debug st;
         esp_now_peers := esp_now_peers st |}
    else st in
  if 10000 <? u32 (now_dbg - last_debug st1) then
    {| buzzer_timer := buzzer_timer st1;
       buzzer_active := buzzer_active st1;
       masters := masters st1;
       buzzer_pin := buzzer_pin st1;
       last_debug := now_set;
       esp_now_peers := esp_now_peers st1 |}
  else st1.

(** *** The environment of the receiver *)

(** One frame handed to the sketch by the ESP-NOW library, with the answer the
    library gives if the sketch tries to register its sender and the clock
    reading the handler gets. *)
Record Frame : Type := {
  fr_info : esp_now_recv_info_t;
  fr_data : list byte;
  fr_len : Z;
  fr_accepted : bool;
  fr_now : Z
}.

Definition known (a : mac) (tbl : list Peer) : bool :=
  existsb (fun p => mac_eqb (peer_addr p) a) tbl.

(** The library's receive dispatch, as the sketch relies on it (lines 51, 66
    and 138-139): a frame whose sender is a registered peer goes to that
    peer's [onReceive]; a frame from any other sender goes to the callback
    given to [ESP_NOW.onNewPeer]. *)
Definition dispatch (f : Frame) (st : State) : State :=
  if known (src_addr (fr_info f)) (esp_now_peers st) then
    onReceive (fr_data f) (fr_len f)
      (mac_eqb (des_addr (fr_info f)) BROADCAST_ADDR) (fr_now f) st
  else
    register_new_master (fr_info f) (fr_data f) (fr_len f)
      (fr_accepted f) (fr_now f) st.

(** Whether the frame [f] starts the buzzer when it is dispatched in [st]:
    its sender is a registered master, or it is a broadcast whose sender the
    library accepts as a new peer. *)
Definition starts_buzzer (f : Frame) (st : State) : bool :=
  known (src_addr (fr_info f)) (esp_now_peers st)
  || (mac_eqb (des_addr (fr_info f)) BROADCAST_ADDR && fr_accepted f).

(** Whether [f] is a broadcast frame from [a] whose sender the library accepts
    as a peer. *)
Definition registers (a : mac) (f : Frame) : bool :=
  mac_eqb (src_addr (fr_info f)) a
  && mac_eqb (des_addr (fr_info f)) BROADCAST_ADDR
  && fr_accepted f.

(** Number of entries of a peer list for the address [a]. *)
Definition entries (a : mac) (tbl : list Peer) : nat :=
  List.length (filter (fun p => mac_eqb (peer_addr p) a) tbl).

(** The registry invariant: the two lists agree and no address has two
    entries. *)
Definition registry_ok (st : State) : Prop :=
  esp_now_peers st = masters st /\
  forall a, entries a (masters st) =
            (if known a (masters st) then 1 else 0)%nat.

Definition receive_all (fs : list Frame) (st : State) : State :=
  fold_left (fun s f => dispatch f s) fs st.

(** Successive iterations of [loop], one clock reading triple each. *)
Definition polls (ts : list (Z * Z * Z)) (st : State) : State :=
  fold_left (fun s t => loop (fst (fst t)) (snd (fst t)) (snd t) s) ts st.

End Receiver.

(** ** The transmitter: the broadcast master sketch *)

Module Transmitter.

Definition BUTTON_PIN : Z := 10.

(** The argument of [delay] on line 115. *)
Definition DEBOUNCE_DELAY : Z := 250.

(** The globals [msg_count] and [lastButtonState], lines 52-53. *)
Record State : Type := {
  msg_count : Z;
  lastButtonState : level
}.

Definition init : State :=
  {| msg_count := 0; lastButtonState := HIGH |}.

(** The buffer handed to [send_message]: the counter it was built from, the
    text [snprintf] wrote and the length passed, [sizeof(data)]. *)
Record Message : Type := {
  msg_seq : Z;
  msg_text : string;
  msg_len : Z
}.

(** [snprintf(data, sizeof(data), "Button Pressed! #%lu", n)]: the text has at
    most 27 characters, so the 32-byte buffer never truncates it. *)
Definition format_message (n : Z) : Message :=
  {| msg_seq := n;
     msg_text :=
       ("Button Pressed! #" ++ NilEmpty.string_of_uint (N.to_uint (Z.to_N n)))%string;
     msg_len := 32 |}.

(** What one iteration of [loop] does besides updating the globals: the
    message it hands to the radio, whether the failure line was printed, and
    the time it spends in [delay]. *)
Record Effects : Type := {
  sent : option Message;
  failure_logged : bool;
  delayed : Z
}.

(** [loop], lines 96-120.  [currentButtonState] is the value [digitalRead]
    returns on line 98 and [send_ok] the answer of the library's [send()]. *)
Definition loop (currentButtonState : level) (send_ok : bool) (s : State)
    : State * Effects :=
  if level_eqb (lastButtonState s) HIGH && level_eqb currentButtonState LOW then
    let count := u32 (msg_count s + 1) in
    ({| msg_count := count; lastButtonState := currentButtonState |},
     {| sent := Some (format_message count);
        failure_logged := negb send_ok;
        delayed := DEBOUNCE_DELAY |})
  else
    ({| msg_count := msg_count s; lastButtonState := currentButtonState |},
     {| sent := None; failure_logged := false; delayed := 0 |}).

(** *** The environment of the transmitter *)

(** One send attempt as seen from outside: when it was made, what was handed
    to the radio and whether the radio took it. *)
Record SendRecord : Type := {
  sr_time : Z;
  sr_msg : Message;
  sr_ok : bool
}.

(** The board while [loop] runs: the time of the next [digitalRead], the
    globals, and the send attempts so far, oldest first. *)
Record World : Type := {
  w_now : Z;
  w_state : State;
  w_log : list SendRecord
}.

Definition boot (t0 : Z) : World :=
  {| w_now := t0; w_state := init; w_log := [] |}.

(** One iteration of [loop] at time [w_now w] on the input signal [sig]
    (level of the button pin as a function of time, in ms).  [gap] is the time
    that passes until the next [digitalRead], the delay excluded. *)
Definition iterate (sig : Z -> level) (gap : Z) (send_ok : bool) (w : World)
    : World :=
  let t := w_now w in
  let (s', eff) := loop (sig t) send_ok (w_state w) in
  {| w_now := t + delayed eff + gap;
     w_state := s';
     w_log :=
       match sent eff with
       | Some m => w_log w ++ [{| sr_time := t; sr_msg := m; sr_ok := send_ok |}]
       | None => w_log w
       end |}.

Fixpoint run (sig : Z -> level) (sched : list (Z * bool)) (w : World) : World :=
  match sched with
  | [] => w
  | (gap, send_ok) :: rest => run sig rest (iterate sig gap send_ok w)
  end.

(** A raw falling edge of the input at time [t]. *)
Definition falling_edge (sig : Z -> level) (t : Z) : Prop :=
  sig (t - 1) = HIGH /\ sig t = LOW.

End Transmitter.

(** ** The specification's wording

    Statements written after the specification text, to be compared with what
    the sketches do. *)

Module Spec.

Import Receiver.

(** "if [active] and [now - activation_time >= duration], sets the output to
    its inactive level and [active = false]". *)
Definition tick (now : Z) (st : State) : State :=
  if buzzer_active st && (BUZZER_DURATION <=? u32 (now - buzzer_timer st)) then
    {| buzzer_timer := buzzer_timer st;
       buzzer_active := false;
       masters := masters st;
       buzzer_pin := LOW;
       last_debug := last_debug st;
       esp_now_peers := esp_now_peers st |}
  else st.

(** "Invariant: [active == (now - activation_time) < duration]", read on the
    state a poll at [now] leaves. *)
Definition actuation_invariant (now : Z) (st : State) : Prop :=
  buzzer_active st = (u32 (now - buzzer_timer st) <? BUZZER_DURATION).

(** "the triggering frame's actuation effect is still honored even if
    registration failed": the output is driven active and the timer started. *)
Definition actuation_honoured (now : Z) (st : State) : Prop :=
  buzzer_pin st = HIGH /\ buzzer_active st = true /\ buzzer_timer st = now.

(** "the registry holds exactly one peer entry per distinct address", the
    registry being the [masters] vector together with the library's table. *)
Definition one_entry_per_source (fs : list Frame) (st : State) : Prop :=
  forall a, In a (map (fun f => src_addr (fr_info f)) fs) ->
            entries a (masters st) = 1%nat /\
            entries a (esp_now_peers st) = 1%nat.

End Spec.

(** ** Concrete inputs used by the examples *)

Definition master_A : mac := Mac x02 x00 x00 x00 x00 x01.
Definition master_B : mac := Mac x02 x00 x00 x00 x00 x02.
Definition own_addr : mac := Mac x02 x00 x00 x00 x00 x99.

Definition broadcast_from (a : mac) : esp_now_recv_info_t :=
  {| src_addr := a; des_addr := BROADCAST_ADDR |}.

Definition unicast_from (a : mac) : esp_now_recv_info_t :=
  {| src_addr := a; des_addr := own_addr |}.

Definition frame (info : esp_now_recv_info_t) (accepted : bool) (now : Z)
    : Receiver.Frame :=
  {| Receiver.fr_info := info;
     Receiver.fr_data := [x42; x00];
     Receiver.fr_len := 32;
     Receiver.fr_accepted := accepted;
     Receiver.fr_now := now |}.

(** A bouncing press: the button closes at 0 ms, bounces open from 20 ms to
    49 ms, closes again at 50 ms and is released at 400 ms. *)
Definition bouncy_press (t : Z) : level :=
  if t <? 0 then HIGH
  else if t <? 20 then LOW
  else if t <? 50 then HIGH
  else if t <? 400 then LOW
  else HIGH.

(** ** Whole runs of the receiver

    After [setup] the receiver sees two kinds of events, in any order: the
    library delivers a frame (from its own task), or [loop] runs once.  Each
    handler only assigns the three actuation globals or appends to the peer
    lists, and is taken as one step. *)

Module ReceiverRun.

Import Receiver.

Inductive Event : Type :=
| Delivered (f : Frame)
| Polled (now now_dbg now_set : Z).

Definition step (e : Event) (st : State) : State :=
  match e with
  | Delivered f => dispatch f st
  | Polled now now_dbg now_set => loop now now_dbg now_set st
  end.

Definition run (es : list Event) (st : State) : State :=
  fold_left (fun s e => step e s) es st.

(** The frames among the events, in order. *)
Fixpoint deliveries (es : list Event) : list Frame :=
  match es with
  | [] => []
  | Delivered f :: es' => f :: deliveries es'
  | Polled _ _ _ :: es' => deliveries es'
  end.

(** The peer object [register_new_master] builds for the sender [a]
    (lines 75-76). *)
Definition master_of (a : mac) : Peer :=
  {| peer_addr := a;
     peer_channel := ESPNOW_WIFI_CHANNEL;
     peer_iface := WIFI_IF_STA;
     peer_lmk := None |}.

End ReceiverRun.

(** Total of the gaps of a transmitter schedule. *)
Definition total_gap (sched : list (Z * bool)) : Z :=
  fold_right (fun p acc => fst p + acc) 0 sched.

(** ** Arithmetic on the millisecond counter *)

Lemma ULONG_RANGE_pos : 0 < ULONG_RANGE.
Proof. reflexivity. Qed.

Lemma u32_range (z : Z) : 0 <= u32 z < ULONG_RANGE.
Proof. unfold u32. apply Z.mod_pos_bound, ULONG_RANGE_pos. Qed.

Lemma u32_small (z : Z) : 0 <= z < ULONG_RANGE -> u32 z = z.
Proof. intros H. unfold u32. now apply Z.mod_small. Qed.

(** The wrapped difference of two wrapped readings is the true elapsed time,
    as long as this is less than one turn of the counter. *)
Lemma u32_elapsed (start elapsed : Z) :
  0 <= elapsed < ULONG_RANGE ->
  u32 (u32 (start + elapsed) - u32 start) = elapsed.
Proof.
  intros H. unfold u32.
  rewrite <- Zminus_mod.
  replace (start + elapsed - start) with elapsed by ring.
  now apply Z.mod_small.
Qed.

(** ** Addresses *)

Lemma byte_difference (x y : byte) :
  Byte.eqb x y = false -> Z.of_N (Byte.to_N x) - Z.of_N (Byte.to_N y) <> 0.
Proof.
  intros Hneq Hz.
  assert (Hn : Byte.to_N x = Byte.to_N y) by lia.
  assert (Hs : Some x = Some y)
    by (rewrite <- (Byte.of_to_N x), <- (Byte.of_to_N y), Hn; reflexivity).
  injection Hs as ->.
  rewrite (Byte.byte_dec_lb (x:=y) (y:=y) eq_refl) in Hneq. discriminate.
Qed.

Lemma memcmp_zero_iff (n : nat) :
  forall a b : list byte,
    List.length a = n -> List.length b = n -> (memcmp a b n = 0 <-> a = b).
Proof.
  induction n as [|n IH]; intros a b Ha Hb.
  - destruct a, b; try discriminate. simpl. tauto.
  - destruct a as [|x a], b as [|y b]; try discriminate.
    injection Ha as Ha. injection Hb as Hb.
    cbn [memcmp]. destruct (Byte.eqb x y) eqn:E.
    + apply Byte.byte_dec_bl in E. subst y.
      rewrite (IH a b Ha Hb). split; [intros ->; reflexivity | congruence].
    + split.
      * intros Hz. now apply byte_difference in E.
      * intros Heq. injection Heq as -> _.
        rewrite (Byte.byte_dec_lb (x:=y) (y:=y) eq_refl) in E. discriminate.
Qed.

Lemma mac_eqb_eq (a b : mac) : mac_eqb a b = true <-> a = b.
Proof.
  unfold mac_eqb. rewrite Z.eqb_eq.
  rewrite (memcmp_zero_iff 6 (mac_bytes a) (mac_bytes b) eq_refl eq_refl).
  destruct a, b. unfold mac_bytes. cbn. split; congruence.
Qed.

Lemma mac_eqb_refl (a : mac) : mac_eqb a a = true.
Proof. now apply mac_eqb_eq. Qed.

Lemma mac_eqb_neq (a b : mac) : mac_eqb a b = false <-> a <> b.
Proof.
  rewrite <- mac_eqb_eq. destruct (mac_eqb a b); split; congruence.
Qed.

(** ** The actuation timer of the receiver *)

Section ActuationTimer.

Import Receiver.

(** What a poll does to the three actuation fields, in one equation each. *)
Lemma loop_buzzer_fields (now now_dbg now_set : Z) (st : State) :
  let expired := buzzer_active st && timed_out BUZZER_DURATION now (buzzer_timer st) in
  buzzer_active (loop now now_dbg now_set st) = buzzer_active st && negb expired /\
  buzzer_pin (loop now now_dbg now_set st) = (if expired then LOW else buzzer_pin st) /\
  buzzer_timer (loop now now_dbg now_set st) = buzzer_timer st /\
  masters (loop now now_dbg now_set st) = masters st /\
  esp_now_peers (loop now now_dbg now_set st) = esp_now_peers st.
Proof.
  unfold loop.
  destruct (buzzer_active st) eqn:Ha;
    destruct (timed_out BUZZER_DURATION now (buzzer_timer st)) eqn:Ht;
    cbn [andb negb];
    match goal with
    | |- context [if ?c then _ else _] => destruct c
    end; cbn; rewrite ?Ha; auto.
Qed.

Lemma timed_out_spec (now timer : Z) :
  timed_out BUZZER_DURATION now timer = (BUZZER_DURATION <? u32 (now - timer)).
Proof. unfold timed_out. rewrite (u32_small BUZZER_DURATION); [reflexivity | easy]. Qed.

(** A poll that comes no later than [BUZZER_DURATION] after the timer was set
    leaves an active buzzer as it is. *)
Lemma loop_keeps_active (now now_dbg now_set : Z) (st : State) :
  buzzer_active st = true ->
  buzzer_pin st = HIGH ->
  u32 (now - buzzer_timer st) <= BUZZER_DURATION ->
  buzzer_active (loop now now_dbg now_set st) = true /\
  buzzer_pin (loop now now_dbg now_set st) = HIGH /\
  buzzer_timer (loop now now_dbg now_set st) = buzzer_timer st.
Proof.
  intros Ha Hp He.
  destruct (loop_buzzer_fields now now_dbg now_set st) as (Ea & Ep & Et & _).
  rewrite Ea, Ep, Et, Ha, timed_out_spec.
  assert (Hlt : (BUZZER_DURATION <? u32 (now - buzzer_timer st)) = false)
    by (apply Z.ltb_ge; exact He).
  rewrite Hlt. cbn. auto.
Qed.

Lemma polls_keep_active (ts : list (Z * Z * Z)) :
  forall st : State,
    buzzer_active st = true ->
    buzzer_pin st = HIGH ->
    Forall (fun p => u32 (fst (fst p) - buzzer_timer st) <= BUZZER_DURATION) ts ->
    buzzer_active (polls ts st) = true /\
    buzzer_pin (polls ts st) = HIGH /\
    buzzer_timer (polls ts st) = buzzer_timer st.
Proof.
  induction ts as [|[[now d1] d2] ts IH]; intros st Ha Hp Hall.
  - cbn. auto.
  - inversion Hall as [|? ? Hhd Htl]; subst. cbn [fst snd] in Hhd.
    destruct (loop_keeps_active now d1 d2 st Ha Hp Hhd) as (Ha' & Hp' & Ht').
    unfold polls. cbn [fold_left fst snd].
    fold (polls ts (loop now d1 d2 st)).
    rewrite <- Ht' in Htl.
    destruct (IH _ Ha' Hp' Htl) as (A & B & C).
    rewrite C, Ht'. auto.
Qed.

(** A poll that comes later than that switches an active buzzer off. *)
Lemma loop_switches_off (now now_dbg now_set : Z) (st : State) :
  buzzer_active st = true ->
  BUZZER_DURATION < u32 (now - buzzer_timer st) ->
  buzzer_active (loop now now_dbg now_set st) = false /\
  buzzer_pin (loop now now_dbg now_set st) = LOW.
Proof.
  intros Ha He.
  destruct (loop_buzzer_fields now now_dbg now_set st) as (Ea & Ep & _).
  rewrite Ea, Ep, Ha, timed_out_spec.
  assert (Hlt : (BUZZER_DURATION <? u32 (now - buzzer_timer st)) = true)
    by (apply Z.ltb_lt; exact He).
  rewrite Hlt. cbn. auto.
Qed.

Lemma dispatch_starts (f : Frame) (st : State) :
  starts_buzzer f st = true ->
  buzzer_timer (dispatch f st) = fr_now f /\
  buzzer_active (dispatch f st) = true /\
  buzzer_pin (dispatch f st) = HIGH.
Proof.
  unfold starts_buzzer, dispatch, register_new_master, add_peer, mac_eqb.
  destruct (known (src_addr (fr_info f)) (esp_now_peers st)); cbn [orb].
  - cbn. auto.
  - intros H. apply andb_prop in H as [Hb Hacc].
    rewrite Hb, Hacc. cbn. auto.
Qed.

End ActuationTimer.

(** ** Receive events and polls of the receiver *)

Section ReceiverClaims.

Import Receiver.

(** C1 (re-arm).  A receive event that starts the buzzer while it is already
    active sets [buzzer_timer] to the time of that event: every later poll
    whose wrapped distance to that event is at most [BUZZER_DURATION] leaves
    the output active, whatever the earlier deadline was, and the first poll
    beyond it switches the output off. *)
Theorem rearm_extends_window (f : Frame) (st : State) :
  buzzer_active st = true ->
  starts_buzzer f st = true ->
  let st' := dispatch f st in
  buzzer_timer st' = fr_now f /\
  buzzer_active st' = true /\
  buzzer_pin st' = HIGH /\
  (forall ts,
      Forall (fun p => u32 (fst (fst p) - fr_now f) <= BUZZER_DURATION) ts ->
      buzzer_active (polls ts st') = true /\
      buzzer_pin (polls ts st') = HIGH /\
      forall now d1 d2,
        BUZZER_DURATION < u32 (now - fr_now f) ->
        buzzer_active (loop now d1 d2 (polls ts st')) = false /\
        buzzer_pin (loop now d1 d2 (polls ts st')) = LOW).
Proof.
  intros _ Hstart st'.
  destruct (dispatch_starts f st Hstart) as (Ht & Ha & Hp).
  fold st' in Ht, Ha, Hp.
  split; [exact Ht |]. split; [exact Ha |]. split; [exact Hp |].
  intros ts Hall. rewrite <- Ht in Hall.
  destruct (polls_keep_active ts st' Ha Hp Hall) as (A & B & C).
  split; [exact A |]. split; [exact B |].
  intros now d1 d2 Hlate.
  apply loop_switches_off; [exact A | rewrite C, Ht; exact Hlate].
Qed.

(** C1 at the specification's figures: started at 0 and started again at 500,
    the buzzer is still on after polls at 1000, 1001 and 1500, and goes off
    at the poll of 1501. *)
Lemma rearm_extends_window_at_500 :
  let st1 := dispatch (frame (broadcast_from master_A) true 0) setup in
  let f := frame (broadcast_from master_A) true 500 in
  let ts := [(1000, 1000, 1000); (1001, 1001, 1001); (1500, 1500, 1500)] in
  buzzer_active st1 = true /\
  starts_buzzer f st1 = true /\
  buzzer_timer st1 = 0 /\
  buzzer_timer (dispatch f st1) = 500 /\
  buzzer_active (polls ts (dispatch f st1)) = true /\
  buzzer_pin (polls ts (dispatch f st1)) = HIGH /\
  buzzer_active (loop 1501 1501 1501 (polls ts (dispatch f st1))) = false /\
  buzzer_pin (loop 1501 1501 1501 (polls ts (dispatch f st1))) = LOW.
Proof.
  intros st1 f ts.
  pose proof (rearm_extends_window f st1 eq_refl eq_refl) as (Ht & _ & _ & Hpolls).
  assert (Hts : Forall (fun p => u32 (fst (fst p) - fr_now f) <= BUZZER_DURATION) ts).
  { repeat constructor; vm_compute; discriminate. }
  destruct (Hpolls ts Hts) as (A & B & Hoff).
  assert (Hlate : BUZZER_DURATION < u32 (1501 - fr_now f)) by reflexivity.
  destruct (Hoff 1501 1501 1501 Hlate) as (C & D).
  repeat split; try reflexivity; assumption.
Defined.

(** The claim of C2 fails: with the registration rejected the frame leaves the
    buzzer off, where the same frame with the registration accepted starts
    it. *)
Lemma rejected_registration_drops_actuation :
  Spec.actuation_honoured 5
    (register_new_master (broadcast_from master_A) [x42] 32 true 5 setup) /\
  ~ Spec.actuation_honoured 5
    (register_new_master (broadcast_from master_A) [x42] 32 false 5 setup).
Proof.
  split.
  - repeat split.
  - intros (Hpin & _). cbn in Hpin. discriminate Hpin.
Qed.

(** C2, amended.  A frame whose sender the library refuses to register
    changes nothing on the receiver: no master is stored, the output and the
    timer keep their values. *)
Theorem rejected_registration_changes_nothing
    (info : esp_now_recv_info_t) (data : list byte) (len now : Z) (st : State) :
  register_new_master info data len false now st = st.
Proof.
  unfold register_new_master, add_peer. cbn [negb].
  destruct (memcmp (mac_bytes (des_addr info)) (mac_bytes BROADCAST_ADDR) 6 =? 0);
    reflexivity.
Qed.

(** The claim of C3 fails.  A poll at an elapsed time equal to
    [BUZZER_DURATION] leaves the buzzer on, where the specification's [tick]
    switches it off; and after a poll on the boot state the buzzer is off
    although less than [BUZZER_DURATION] has elapsed. *)
Lemma poll_at_exact_duration_keeps_buzzer_on :
  let st := onReceive [x42] 32 true 0 setup in
  u32 (1000 - buzzer_timer st) = BUZZER_DURATION /\
  buzzer_active (loop 1000 1000 1000 st) = true /\
  buzzer_pin (loop 1000 1000 1000 st) = HIGH /\
  buzzer_active (Spec.tick 1000 st) = false /\
  ~ Spec.actuation_invariant 1000 (loop 1000 1000 1000 st) /\
  ~ Spec.actuation_invariant 5 (loop 5 5 5 setup).
Proof.
  cbv zeta. repeat split; intros H; vm_compute in H; discriminate H.
Qed.

(** C3, amended.  A poll switches the output off exactly when the buzzer is
    active and the wrapped elapsed time is strictly greater than
    [BUZZER_DURATION]; otherwise it leaves the actuation state as it is.  So
    after every poll an active buzzer has an elapsed time of at most
    [BUZZER_DURATION] (the converse fails: an inactive buzzer stays inactive
    whatever the elapsed time). *)
Theorem poll_switches_off_strictly_after_duration
    (now now_dbg now_set : Z) (st : State) :
  let elapsed := u32 (now - buzzer_timer st) in
  let st' := loop now now_dbg now_set st in
  buzzer_active st' = buzzer_active st && (elapsed <=? BUZZER_DURATION) /\
  buzzer_pin st' =
    (if buzzer_active st && (BUZZER_DURATION <? elapsed) then LOW
     else buzzer_pin st) /\
  buzzer_timer st' = buzzer_timer st /\
  (buzzer_active st' = true -> u32 (now - buzzer_timer st') <= BUZZER_DURATION).
Proof.
  intros elapsed st'.
  destruct (loop_buzzer_fields now now_dbg now_set st) as (Ea & Ep & Et & _).
  fold st' in Ea, Ep, Et. rewrite timed_out_spec in Ea, Ep. fold elapsed in Ea, Ep.
  assert (Hneg : negb (BUZZER_DURATION <? elapsed) = (elapsed <=? BUZZER_DURATION))
    by (rewrite Z.ltb_antisym, negb_involutive; reflexivity).
  rewrite Ea, Ep, Et.
  destruct (buzzer_active st); cbn [andb negb]; rewrite ?Hneg;
    repeat split; try reflexivity; try discriminate.
  fold elapsed. intros H. now apply Z.leb_le.
Qed.

(** C6 (wrap-around).  Let the buzzer be started at true time [start] and
    polled [elapsed] milliseconds later, both read through the wrapping
    32-bit counter.  The comparison of line 147 then decides on the true
    elapsed time, wherever the counter wraps in between: the output stays on
    up to [BUZZER_DURATION] and is switched off beyond it, and the same holds
    of the test for any duration below half the range of the counter. *)
Theorem elapsed_time_wraparound_safe
    (duration start elapsed : Z) (data : list byte) (len : Z) (bc : bool)
    (now_dbg now_set : Z) (st : State) :
  0 <= duration < ULONG_RANGE / 2 ->
  0 <= elapsed < ULONG_RANGE ->
  let st' :=
    loop (u32 (start + elapsed)) now_dbg now_set
         (onReceive data len bc (u32 start) st) in
  timed_out duration (u32 (start + elapsed)) (u32 start) = (duration <? elapsed) /\
  buzzer_active st' = (elapsed <=? BUZZER_DURATION) /\
  buzzer_pin st' = (if elapsed <=? BUZZER_DURATION then HIGH else LOW).
Proof.
  intros Hd He st'.
  assert (Hhalf : ULONG_RANGE / 2 <= ULONG_RANGE) by (vm_compute; discriminate).
  split.
  - unfold timed_out. rewrite (u32_elapsed start elapsed He).
    rewrite (u32_small duration) by lia. reflexivity.
  - destruct (loop_buzzer_fields (u32 (start + elapsed)) now_dbg now_set
                (onReceive data len bc (u32 start) st)) as (Ea & Ep & _).
    fold st' in Ea, Ep. cbn [onReceive buzzer_active buzzer_timer buzzer_pin] in Ea, Ep.
    rewrite timed_out_spec, (u32_elapsed start elapsed He) in Ea, Ep.
    rewrite Ea, Ep. cbn [andb].
    rewrite Z.ltb_antisym, negb_involutive.
    destruct (elapsed <=? BUZZER_DURATION); split; reflexivity.
Qed.

(** C6 across the wrap: started 100 ms before the counter overflows, the
    buzzer is still on 1000 ms later (counter reading 900) and is switched
    off at 1001 ms (reading 901). *)
Lemma elapsed_time_wraparound_safe_across_overflow :
  let start := ULONG_RANGE - 100 in
  let st := onReceive [x42] 32 true (u32 start) setup in
  (0 <= BUZZER_DURATION < ULONG_RANGE / 2) /\
  u32 (start + 1000) = 900 /\
  buzzer_active (loop (u32 (start + 1000)) 0 0 st) = true /\
  buzzer_active (loop (u32 (start + 1001)) 0 0 st) = false /\
  buzzer_pin (loop (u32 (start + 1001)) 0 0 st) = LOW.
Proof.
  intros start st.
  assert (Hd : 0 <= BUZZER_DURATION < ULONG_RANGE / 2) by (vm_compute; split; congruence).
  assert (H0 : 0 <= 1000 < ULONG_RANGE) by (vm_compute; split; congruence).
  assert (H1 : 0 <= 1001 < ULONG_RANGE) by (vm_compute; split; congruence).
  pose proof (elapsed_time_wraparound_safe BUZZER_DURATION start 1000
                [x42] 32 true 0 0 setup Hd H0) as (_ & A & _).
  pose proof (elapsed_time_wraparound_safe BUZZER_DURATION start 1001
                [x42] 32 true 0 0 setup Hd H1) as (_ & B & C).
  repeat split; try assumption; vm_compute; congruence.
Defined.

(** C8.  A frame that reaches the new-peer callback with a destination other
    than the broadcast address changes nothing: [register_new_master] returns
    the state it was given, whatever the library would have answered, and so
    does the dispatch of such a frame from an unknown sender. *)
Theorem unknown_unicast_is_ignored (f : Frame) (st : State) :
  des_addr (fr_info f) <> BROADCAST_ADDR ->
  (forall data len accepted now,
      register_new_master (fr_info f) data len accepted now st = st) /\
  (known (src_addr (fr_info f)) (esp_now_peers st) = false -> dispatch f st = st).
Proof.
  intros Hdes.
  apply mac_eqb_neq in Hdes. unfold mac_eqb in Hdes.
  assert (Hreg : forall data len accepted now,
             register_new_master (fr_info f) data len accepted now st = st).
  { intros. unfold register_new_master. rewrite Hdes. reflexivity. }
  split; [exact Hreg |].
  intros Hunknown. unfold dispatch. rewrite Hunknown. apply Hreg.
Qed.

Lemma unknown_unicast_is_ignored_on_boot :
  unicast_from master_A <> broadcast_from master_A /\
  dispatch (frame (unicast_from master_A) true 7) setup = setup /\
  masters (dispatch (frame (unicast_from master_A) true 7) setup) = [] /\
  buzzer_active (dispatch (frame (unicast_from master_A) true 7) setup) = false.
Proof.
  assert (Hdes : des_addr (fr_info (frame (unicast_from master_A) true 7))
                 <> BROADCAST_ADDR) by (cbn; discriminate).
  destruct (unknown_unicast_is_ignored (frame (unicast_from master_A) true 7)
              setup Hdes) as (_ & Hd).
  rewrite (Hd eq_refl).
  repeat split; try reflexivity. discriminate.
Defined.

(** C10.  [onReceive] looks at neither its payload nor its broadcast flag: it
    drives the output high, stores the clock reading and sets the active flag,
    and leaves the rest of the state alone.  So a frame from a registered
    master starts the buzzer whether it was sent to the broadcast address or
    to the receiver itself. *)
Theorem onReceive_ignores_payload_and_flag
    (data data' : list byte) (len len' : Z) (bc bc' : bool) (now : Z)
    (st : State) :
  onReceive data len bc now st = onReceive data' len' bc' now st /\
  buzzer_pin (onReceive data len bc now st) = HIGH /\
  buzzer_timer (onReceive data len bc now st) = now /\
  buzzer_active (onReceive data len bc now st) = true /\
  masters (onReceive data len bc now st) = masters st /\
  esp_now_peers (onReceive data len bc now st) = esp_now_peers st /\
  (forall f : Frame,
      known (src_addr (fr_info f)) (esp_now_peers st) = true ->
      dispatch f st = onReceive data len bc (fr_now f) st).
Proof.
  repeat split.
  intros f Hk. unfold dispatch. rewrite Hk. reflexivity.
Qed.

End ReceiverClaims.

(** ** The peer registry of the receiver *)

Section PeerRegistry.

Import Receiver.

Lemma entries_app (a : mac) (l : list Peer) (p : Peer) :
  entries a (l ++ [p]) =
  (entries a l + (if mac_eqb (peer_addr p) a then 1 else 0))%nat.
Proof.
  unfold entries. rewrite filter_app, length_app. cbn [filter].
  destruct (mac_eqb (peer_addr p) a); reflexivity.
Qed.

Lemma known_app (a : mac) (l : list Peer) (p : Peer) :
  known a (l ++ [p]) = known a l || mac_eqb (peer_addr p) a.
Proof.
  unfold known. rewrite existsb_app. cbn [existsb]. now rewrite orb_false_r.
Qed.

(** What the dispatch of one frame does to the two peer lists. *)
Lemma dispatch_registry (f : Frame) (st : State) :
  let grow :=
    negb (known (src_addr (fr_info f)) (esp_now_peers st))
    && mac_eqb (des_addr (fr_info f)) BROADCAST_ADDR
    && fr_accepted f in
  let p := {| peer_addr := src_addr (fr_info f);
              peer_channel := ESPNOW_WIFI_CHANNEL;
              peer_iface := WIFI_IF_STA;
              peer_lmk := None |} in
  masters (dispatch f st) = (if grow then masters st ++ [p] else masters st) /\
  esp_now_peers (dispatch f st) =
    (if grow then esp_now_peers st ++ [p] else esp_now_peers st).
Proof.
  unfold dispatch, register_new_master, add_peer, mac_eqb.
  destruct (known (src_addr (fr_info f)) (esp_now_peers st)); cbn [negb andb].
  - split; reflexivity.
  - destruct (memcmp (mac_bytes (des_addr (fr_info f)))
                (mac_bytes BROADCAST_ADDR) 6 =? 0); cbn [andb].
    + destruct (fr_accepted f); split; reflexivity.
    + split; reflexivity.
Qed.

Lemma dispatch_preserves_registry (f : Frame) (st : State) :
  registry_ok st ->
  registry_ok (dispatch f st) /\
  forall a, known a (masters (dispatch f st)) =
            known a (masters st) || registers a f.
Proof.
  intros [Hsame Hcount].
  destruct (dispatch_registry f st) as [Hm Hp].
  rewrite Hsame in Hm, Hp. unfold registry_ok. rewrite Hm, Hp. unfold registers.
  destruct (known (src_addr (fr_info f)) (masters st)) eqn:Hk; cbn [negb andb].
  - repeat split; try assumption.
    intros a. destruct (mac_eqb (src_addr (fr_info f)) a) eqn:Ha; cbn [andb].
    + apply mac_eqb_eq in Ha. subst a. rewrite Hk. reflexivity.
    + now rewrite orb_false_r.
  - destruct (mac_eqb (des_addr (fr_info f)) BROADCAST_ADDR); cbn [andb].
    2:{ repeat split; try assumption.
        intros a. now rewrite andb_false_r, orb_false_r. }
    destruct (fr_accepted f).
    2:{ repeat split; try assumption.
        intros a. now rewrite andb_false_r, orb_false_r. }
    repeat split.
    + intros a. rewrite entries_app, known_app, Hcount. cbn [peer_addr].
      destruct (mac_eqb (src_addr (fr_info f)) a) eqn:Ha.
      * apply mac_eqb_eq in Ha. subst a. rewrite Hk. reflexivity.
      * rewrite orb_false_r. destruct (known a (masters st)); reflexivity.
    + intros a. rewrite known_app. cbn [peer_addr]. now rewrite !andb_true_r.
Qed.

Lemma receive_all_registry (fs : list Frame) :
  forall st : State,
    registry_ok st ->
    registry_ok (receive_all fs st) /\
    forall a, known a (masters (receive_all fs st)) =
              known a (masters st) || existsb (registers a) fs.
Proof.
  induction fs as [|f fs IH]; intros st Hok.
  - unfold receive_all. cbn [fold_left existsb].
    split; [assumption | intros a; now rewrite orb_false_r].
  - destruct (dispatch_preserves_registry f st Hok) as [Hok1 Hk1].
    destruct (IH (dispatch f st) Hok1) as [Hok2 Hk2].
    unfold receive_all in *. cbn [fold_left existsb].
    split; [assumption |].
    intros a. rewrite Hk2, Hk1. now rewrite orb_assoc.
Qed.

Lemma setup_registry_ok : registry_ok setup.
Proof. split; [reflexivity | intros a; reflexivity]. Qed.

(** The claim of C4 fails: a broadcast from a sender the library refuses to
    register leaves the registry without an entry for that sender. *)
Lemma rejected_sender_has_no_entry :
  let fs := [frame (broadcast_from master_A) false 5] in
  entries master_A (masters (receive_all fs setup)) = 0%nat /\
  ~ Spec.one_entry_per_source fs (receive_all fs setup).
Proof.
  cbv zeta. split; [reflexivity |].
  intros H. destruct (H master_A) as [Hm _].
  - cbn. left. reflexivity.
  - vm_compute in Hm. discriminate Hm.
Qed.

(** C4, amended.  After any sequence of frames processed from the boot state
    the [masters] vector and the library's peer table hold the same peers,
    and for every address the number of entries is one if some broadcast
    frame of the sequence came from it with the registration accepted, and
    zero otherwise.  So repeated frames from one sender never give it a
    second entry, and a sender whose registrations are all rejected has
    none. *)
Theorem registry_has_one_entry_per_accepted_sender (fs : list Frame) (a : mac) :
  let st := receive_all fs setup in
  esp_now_peers st = masters st /\
  entries a (masters st) = (if existsb (registers a) fs then 1 else 0)%nat /\
  entries a (esp_now_peers st) = (if existsb (registers a) fs then 1 else 0)%nat.
Proof.
  intros st.
  destruct (receive_all_registry fs setup setup_registry_ok) as [[Hsame Hcount] Hk].
  fold st in Hsame, Hcount, Hk.
  assert (He : entries a (masters st) =
               (if existsb (registers a) fs then 1 else 0)%nat).
  { rewrite Hcount, Hk. reflexivity. }
  rewrite Hsame. auto.
Qed.

(** Three senders, one of them twice and one refused: two entries. *)
Example registry_after_repeated_frames :
  map peer_addr
    (masters
       (receive_all
          [frame (broadcast_from master_A) true 0;
           frame (broadcast_from master_B) true 10;
           frame (broadcast_from master_A) true 20;
           frame (broadcast_from own_addr) false 30;
           frame (unicast_from master_A) true 40]
          setup))
  = [master_A; master_B].
Proof. reflexivity. Qed.

End PeerRegistry.

(** ** The press detector of the transmitter *)

Section PressDetector.

Import Transmitter.

Variable sig : Z -> level.

(** The two ways an iteration can go. *)
Lemma loop_press (send_ok : bool) (s : State) :
  lastButtonState s = HIGH ->
  loop LOW send_ok s =
  ({| msg_count := u32 (msg_count s + 1); lastButtonState := LOW |},
   {| sent := Some (format_message (u32 (msg_count s + 1)));
      failure_logged := negb send_ok;
      delayed := DEBOUNCE_DELAY |}).
Proof. intros H. unfold loop. rewrite H. reflexivity. Qed.

Lemma loop_no_press (cur : level) (send_ok : bool) (s : State) :
  lastButtonState s = LOW \/ cur = HIGH ->
  loop cur send_ok s =
  ({| msg_count := msg_count s; lastButtonState := cur |},
   {| sent := None; failure_logged := false; delayed := 0 |}).
Proof.
  intros [H | H]; unfold loop; rewrite H.
  - reflexivity.
  - destruct (lastButtonState s); reflexivity.
Qed.

Lemma iterate_press (gap : Z) (send_ok : bool) (w : World) :
  lastButtonState (w_state w) = HIGH ->
  sig (w_now w) = LOW ->
  iterate sig gap send_ok w =
  {| w_now := w_now w + DEBOUNCE_DELAY + gap;
     w_state := {| msg_count := u32 (msg_count (w_state w) + 1);
                   lastButtonState := LOW |};
     w_log := w_log w ++
              [{| sr_time := w_now w;
                  sr_msg := format_message (u32 (msg_count (w_state w) + 1));
                  sr_ok := send_ok |}] |}.
Proof.
  intros Hlast Hcur. unfold iterate. rewrite Hcur, (loop_press _ _ Hlast).
  reflexivity.
Qed.

Lemma iterate_no_press (gap : Z) (send_ok : bool) (w : World) :
  lastButtonState (w_state w) = LOW \/ sig (w_now w) = HIGH ->
  iterate sig gap send_ok w =
  {| w_now := w_now w + 0 + gap;
     w_state := {| msg_count := msg_count (w_state w);
                   lastButtonState := sig (w_now w) |};
     w_log := w_log w |}.
Proof.
  intros H. unfold iterate. rewrite (loop_no_press _ _ _ H). reflexivity.
Qed.

Lemma iterate_cases (gap : Z) (send_ok : bool) (w : World) :
  (lastButtonState (w_state w) = HIGH /\ sig (w_now w) = LOW) \/
  (lastButtonState (w_state w) = LOW \/ sig (w_now w) = HIGH).
Proof.
  destruct (lastButtonState (w_state w)), (sig (w_now w)); auto.
Qed.

(** Every send attempt of a run is made at or after the time the run starts
    from, and the attempts already logged stay in front. *)
Lemma run_log_times (sched : list (Z * bool)) :
  Forall (fun p => 0 <= fst p) sched ->
  forall w : World,
  exists later,
    w_log (run sig sched w) = w_log w ++ later /\
    Forall (fun r => w_now w <= sr_time r) later.
Proof.
  induction sched as [|[gap ok] sched IH]; intros Hgaps w.
  - exists []. cbn. rewrite app_nil_r. auto.
  - inversion Hgaps as [|? ? Hgap Hrest]; subst. cbn [fst] in Hgap.
    cbn [run].
    destruct (iterate_cases gap ok w) as [[Hl Hc] | Hno].
    + rewrite (iterate_press gap ok w Hl Hc).
      destruct (IH Hrest
                  {| w_now := w_now w + DEBOUNCE_DELAY + gap;
                     w_state := {| msg_count := u32 (msg_count (w_state w) + 1);
                                   lastButtonState := LOW |};
                     w_log := w_log w ++
                              [{| sr_time := w_now w;
                                  sr_msg := format_message (u32 (msg_count (w_state w) + 1));
                                  sr_ok := ok |}] |})
        as (later & Hlog & Htimes).
      cbn [w_log w_now] in Hlog, Htimes.
      eexists. rewrite Hlog, <- app_assoc. split; [reflexivity |].
      constructor; [cbn; lia |].
      eapply Forall_impl; [| exact Htimes].
      cbn. unfold DEBOUNCE_DELAY. intros r Hr. lia.
    + rewrite (iterate_no_press gap ok w Hno).
      destruct (IH Hrest
                  {| w_now := w_now w + 0 + gap;
                     w_state := {| msg_count := msg_count (w_state w);
                                   lastButtonState := sig (w_now w) |};
                     w_log := w_log w |})
        as (later & Hlog & Htimes).
      cbn [w_log w_now] in Hlog, Htimes.
      exists later. split; [exact Hlog |].
      eapply Forall_impl; [| exact Htimes].
      cbn. intros r Hr. lia.
Qed.

(** Once the input has no falling edge left, a level seen high stays high. *)
Lemma stays_high (n : nat) :
  (forall t, 50 < t -> ~ falling_edge sig t) ->
  forall t, 50 < t -> sig t = HIGH -> sig (t + Z.of_nat n) = HIGH.
Proof.
  intros Hquiet t Ht Hhigh.
  induction n as [|n IH].
  - now rewrite Z.add_0_r.
  - destruct (sig (t + Z.of_nat (S n))) eqn:E; [| reflexivity].
    exfalso. apply (Hquiet (t + Z.of_nat (S n))); [lia |].
    split; [| exact E].
    replace (t + Z.of_nat (S n) - 1) with (t + Z.of_nat n) by lia.
    exact IH.
Qed.

(** ... and a run that starts after the last falling edge, with the button
    either recorded as pressed or currently released, sends nothing. *)
Lemma run_quiet (sched : list (Z * bool)) :
  (forall t, 50 < t -> ~ falling_edge sig t) ->
  Forall (fun p => 0 <= fst p) sched ->
  forall w : World,
    50 < w_now w ->
    (lastButtonState (w_state w) = HIGH -> sig (w_now w) = HIGH) ->
    w_log (run sig sched w) = w_log w.
Proof.
  intros Hquiet.
  induction sched as [|[gap ok] sched IH]; intros Hgaps w Hnow Hhigh.
  - reflexivity.
  - inversion Hgaps as [|? ? Hgap Hrest]; subst. cbn [fst] in Hgap.
    cbn [run].
    assert (Hno : lastButtonState (w_state w) = LOW \/ sig (w_now w) = HIGH).
    { destruct (lastButtonState (w_state w)); [left; reflexivity | right; auto]. }
    rewrite (iterate_no_press gap ok w Hno).
    rewrite IH; [reflexivity | exact Hrest | cbn; lia |].
    cbn [w_state w_now lastButtonState]. intros Hcur.
    replace (w_now w + 0 + gap) with (w_now w + Z.of_nat (Z.to_nat gap)) by lia.
    apply stays_high; assumption.
Qed.

(** C5 (debounce).  Let the first falling edge of the input be sampled at
    time 0.  The run then sends one message at time 0, and every further send
    is made at 250 ms or later, whatever the input does in between: an edge
    at 50 ms triggers nothing.  If the input has no falling edge after 50 ms,
    that one message is the only one sent. *)
Theorem debounce_sends_one_message
    (s : State) (sched : list (Z * bool)) :
  lastButtonState s = HIGH ->
  sig 0 = LOW ->
  Forall (fun p => 0 <= fst p) sched ->
  sched <> [] ->
  exists later,
    w_log (run sig sched {| w_now := 0; w_state := s; w_log := [] |}) =
      {| sr_time := 0;
         sr_msg := format_message (u32 (msg_count s + 1));
         sr_ok := snd (hd (0, true) sched) |} :: later /\
    Forall (fun r => DEBOUNCE_DELAY <= sr_time r) later /\
    ((forall t, 50 < t -> ~ falling_edge sig t) -> later = []).
Proof.
  intros Hlast Hlow Hgaps Hne.
  destruct sched as [|[gap ok] sched]; [congruence |].
  inversion Hgaps as [|? ? Hgap Hrest]; subst. cbn [fst] in Hgap.
  cbn [run hd snd].
  set (w0 := {| w_now := 0; w_state := s; w_log := [] |}).
  pose proof (iterate_press gap ok w0 Hlast Hlow) as Hit.
  cbn [w0 w_now w_state w_log app] in Hit.
  destruct (run_log_times sched Hrest (iterate sig gap ok w0)) as (later & Hlog & Htimes).
  rewrite Hit in Hlog, Htimes. cbn [w_log w_now app] in Hlog, Htimes.
  exists later. split; [rewrite <- Hit in Hlog; exact Hlog |]. split.
  - eapply Forall_impl; [| exact Htimes]. cbn beta. intros r Hr. lia.
  - intros Hquiet.
    assert (Hq : w_log (run sig sched (iterate sig gap ok w0))
                 = w_log (iterate sig gap ok w0)).
    { apply run_quiet; try assumption; rewrite Hit.
      - cbn [w_now]. unfold DEBOUNCE_DELAY. lia.
      - cbn [w_state lastButtonState]. discriminate. }
    rewrite <- Hit in Hlog. rewrite Hq, Hit in Hlog. cbn [w_log] in Hlog.
    destruct later; [reflexivity | discriminate Hlog].
Qed.

End PressDetector.

Section PressDetectorRuns.

Import Transmitter.

Lemma bouncy_press_quiet_after_50 :
  forall t, 50 < t -> ~ falling_edge bouncy_press t.
Proof.
  intros t Ht [Hprev Hcur]. unfold bouncy_press in Hprev, Hcur.
  destruct (Z.ltb_spec (t - 1) 0), (Z.ltb_spec (t - 1) 20),
    (Z.ltb_spec (t - 1) 50), (Z.ltb_spec (t - 1) 400),
    (Z.ltb_spec t 0), (Z.ltb_spec t 20), (Z.ltb_spec t 50),
    (Z.ltb_spec t 400); try discriminate; lia.
Qed.

(** C5 on a press that bounces: falling edges at 0 ms and at 50 ms, one
    message. *)
Lemma debounce_sends_one_message_bouncy :
  let sched := [(1, true); (19, true); (30, true); (100, true); (50, true);
                (1, true)] in
  falling_edge bouncy_press 0 /\
  falling_edge bouncy_press 50 /\
  w_log (run bouncy_press sched (boot 0)) =
    [{| sr_time := 0; sr_msg := format_message 1; sr_ok := true |}].
Proof.
  intros sched.
  assert (Hgaps : Forall (fun p : Z * bool => 0 <= fst p) sched)
    by (repeat constructor; cbn; discriminate).
  assert (Hne : sched <> []) by discriminate.
  destruct (debounce_sends_one_message bouncy_press init sched
              eq_refl eq_refl Hgaps Hne) as (later & Hlog & _ & Hnone).
  rewrite (Hnone bouncy_press_quiet_after_50) in Hlog.
  repeat split; exact Hlog.
Defined.

(** Two presses 300 ms apart are both sent; the hold only covers 250 ms. *)
Example two_presses_two_messages :
  map (fun r => (sr_time r, msg_seq (sr_msg r)))
    (w_log (run (fun t => if (t <? 100) || ((300 <=? t) && (t <? 400))
                          then LOW else HIGH)
              [(0, true); (50, true); (0, false); (0, true)] (boot 0)))
  = [(0, 1); (300, 2)].
Proof. reflexivity. Qed.

Example first_message_text :
  msg_text (format_message 1) = "Button Pressed! #1"%string.
Proof. reflexivity. Qed.

Variable sig : Z -> level.

(** Successive send attempts are at least the hold time apart. *)
Lemma sends_are_spaced (sched : list (Z * bool)) :
  Forall (fun p => 0 <= fst p) sched ->
  forall w : World,
    Forall (fun r => sr_time r + DEBOUNCE_DELAY <= w_now w) (w_log w) ->
    ForallOrdPairs (fun a b => sr_time a + DEBOUNCE_DELAY <= sr_time b) (w_log w) ->
    ForallOrdPairs (fun a b => sr_time a + DEBOUNCE_DELAY <= sr_time b)
      (w_log (run sig sched w)).
Proof.
  induction sched as [|[gap ok] sched IH]; intros Hgaps w Hpast Hpairs.
  - exact Hpairs.
  - inversion Hgaps as [|? ? Hgap Hrest]; subst. cbn [fst] in Hgap.
    cbn [run]. apply IH; [exact Hrest | |];
      destruct (iterate_cases sig gap ok w) as [[Hl Hc] | Hno].
    + rewrite (iterate_press sig gap ok w Hl Hc). cbn [w_log w_now].
      apply Forall_app. split.
      * eapply Forall_impl; [| exact Hpast]. cbn beta.
        unfold DEBOUNCE_DELAY. intros r Hr. lia.
      * constructor; [cbn [sr_time]; lia | constructor].
    + rewrite (iterate_no_press sig gap ok w Hno). cbn [w_log w_now].
      eapply Forall_impl; [| exact Hpast]. cbn beta. intros r Hr. lia.
    + rewrite (iterate_press sig gap ok w Hl Hc). cbn [w_log].
      clear IH. induction Hpairs as [|a l Ha Hl' IHl].
      * cbn. constructor; [constructor | constructor].
      * cbn [app]. inversion Hpast as [|? ? Hpa Hpl]; subst.
        constructor; [| apply IHl; exact Hpl].
        apply Forall_app. split; [exact Ha |].
        constructor; [cbn [sr_time]; lia | constructor].
    + rewrite (iterate_no_press sig gap ok w Hno). exact Hpairs.
Qed.

(** The counters of the messages a run adds to the log follow the counter the
    run starts from, one by one. *)
Lemma run_counters (sched : list (Z * bool)) :
  forall w : World,
  exists later,
    w_log (run sig sched w) = w_log w ++ later /\
    map (fun r => msg_seq (sr_msg r)) later =
      map (fun k => u32 (msg_count (w_state w) + Z.of_nat k))
          (seq 1 (List.length later)) /\
    u32 (msg_count (w_state (run sig sched w))) =
      u32 (msg_count (w_state w) + Z.of_nat (List.length later)).
Proof.
  induction sched as [|[gap ok] sched IH]; intros w.
  - exists []. cbn. rewrite app_nil_r, Z.add_0_r. auto.
  - cbn [run]. destruct (iterate_cases sig gap ok w) as [[Hl Hc] | Hno].
    + rewrite (iterate_press sig gap ok w Hl Hc).
      match goal with
      | |- context [run sig sched ?w1] =>
          destruct (IH w1) as (later & Hlog & Hseq & Hcount)
      end.
      cbn [w_log w_state msg_count] in Hlog, Hseq, Hcount.
      eexists. rewrite Hlog, <- app_assoc. split; [reflexivity |].
      assert (Hshift : forall k,
                 u32 (u32 (msg_count (w_state w) + 1) + Z.of_nat k) =
                 u32 (msg_count (w_state w) + Z.of_nat (S k))).
      { intros k. unfold u32. rewrite Zplus_mod_idemp_l. f_equal. lia. }
      cbn [app List.length map seq sr_msg].
      split.
      * change (Z.of_nat 1) with 1. cbn [msg_seq format_message]. f_equal.
        rewrite <- (seq_shift (List.length later) 1), Hseq, map_map.
        apply map_ext. exact Hshift.
      * rewrite Hcount. apply Hshift.
    + rewrite (iterate_no_press sig gap ok w Hno).
      match goal with
      | |- context [run sig sched ?w1] =>
          destruct (IH w1) as (later & Hlog & Hseq & Hcount)
      end.
      cbn [w_log w_state msg_count] in Hlog, Hseq, Hcount.
      exists later. auto.
Qed.

Lemma run_counter_in_range (sched : list (Z * bool)) :
  forall w : World,
    0 <= msg_count (w_state w) < ULONG_RANGE ->
    0 <= msg_count (w_state (run sig sched w)) < ULONG_RANGE.
Proof.
  induction sched as [|[gap ok] sched IH]; intros w Hw.
  - exact Hw.
  - cbn [run]. apply IH.
    destruct (iterate_cases sig gap ok w) as [[Hl Hc] | Hno].
    + rewrite (iterate_press sig gap ok w Hl Hc). cbn. apply u32_range.
    + rewrite (iterate_no_press sig gap ok w Hno). exact Hw.
Qed.

(** The outcome of [send()] does not influence a run: the times, the globals
    and the messages handed to the radio are those of the run in which every
    send succeeds. *)
Lemma run_ignores_send_results (sched : list (Z * bool)) :
  forall w w' : World,
    w_now w = w_now w' ->
    w_state w = w_state w' ->
    map (fun r => (sr_time r, sr_msg r)) (w_log w) =
    map (fun r => (sr_time r, sr_msg r)) (w_log w') ->
    let r1 := run sig sched w in
    let r2 := run sig (map (fun p => (fst p, true)) sched) w' in
    w_now r1 = w_now r2 /\
    w_state r1 = w_state r2 /\
    map (fun r => (sr_time r, sr_msg r)) (w_log r1) =
    map (fun r => (sr_time r, sr_msg r)) (w_log r2).
Proof.
  induction sched as [|[gap ok] sched IH]; intros w w' Hn Hs Hl.
  - cbn. auto.
  - cbn [run map fst]. apply IH.
    + unfold iterate, loop. rewrite Hn, Hs.
      destruct (level_eqb _ HIGH && level_eqb _ LOW); reflexivity.
    + unfold iterate, loop. rewrite Hn, Hs.
      destruct (level_eqb _ HIGH && level_eqb _ LOW); reflexivity.
    + unfold iterate, loop. rewrite Hn, Hs.
      destruct (level_eqb _ HIGH && level_eqb _ LOW); cbn [sent w_log].
      * rewrite !map_app, Hl. reflexivity.
      * exact Hl.
Qed.

End PressDetectorRuns.

(** ** The message counter and failed sends *)

Section TransmitterClaims.

Import Transmitter.

(** C7 (sequence counter).  [msg_count] starts at 0 and is pre-incremented
    modulo [2^32] by every iteration that detects a press, and by no other:
    in any run from boot the [k]-th message carries [k mod 2^32], so the first
    carries 1, each next one the previous value plus one, and the value after
    [2^32 - 1] is 0. *)
Theorem message_counter_counts_presses
    (sig : Z -> level) (sched : list (Z * bool)) (t0 : Z) :
  let w := run sig sched (boot t0) in
  let n := List.length (w_log w) in
  msg_count init = 0 /\
  (forall ok, sent (snd (loop LOW ok init)) = Some (format_message 1)) /\
  map (fun r => msg_seq (sr_msg r)) (w_log w) =
    map (fun k => u32 (Z.of_nat k)) (seq 1 n) /\
  msg_count (w_state w) = u32 (Z.of_nat n) /\
  (forall c ok,
      loop LOW ok {| msg_count := c; lastButtonState := HIGH |} =
      ({| msg_count := u32 (c + 1); lastButtonState := LOW |},
       {| sent := Some (format_message (u32 (c + 1)));
          failure_logged := negb ok;
          delayed := DEBOUNCE_DELAY |})) /\
  (forall c, 0 <= c < ULONG_RANGE - 1 -> u32 (c + 1) = c + 1) /\
  u32 ((ULONG_RANGE - 1) + 1) = 0 /\
  (forall cur ok s,
      lastButtonState s = LOW \/ cur = HIGH ->
      msg_count (fst (loop cur ok s)) = msg_count s /\
      sent (snd (loop cur ok s)) = None).
Proof.
  intros w n.
  destruct (run_counters sig sched (boot t0)) as (later & Hlog & Hseq & Hcount).
  fold w in Hlog, Hcount. cbn [boot w_log w_state init msg_count app] in Hlog, Hseq, Hcount.
  assert (Hn : List.length later = n) by (unfold n; now rewrite Hlog).
  rewrite Hn in Hseq, Hcount.
  assert (Hrange : 0 <= msg_count (w_state w) < ULONG_RANGE).
  { apply run_counter_in_range. cbn. split; [lia | reflexivity]. }
  rewrite (u32_small _ Hrange) in Hcount.
  split; [reflexivity |]. split; [reflexivity |].
  split; [rewrite Hlog, Hseq; apply map_ext; intros k; reflexivity |].
  split; [exact Hcount |].
  split; [reflexivity |].
  split; [intros c Hc; apply u32_small; lia |].
  split; [reflexivity |].
  intros cur ok s H. rewrite (loop_no_press cur ok s H). split; reflexivity.
Qed.

(** C9 (failed send).  The answer of the radio reaches nothing but the
    failure line: with a failed send an iteration leaves the same globals,
    hands over the same message and holds as long as with a successful one.
    After it, a released sample followed by a pressed one sends the next
    message, and whole runs that differ only in the answers of the radio go
    through the same times, globals and messages. *)
Theorem send_failure_leaves_detector_unchanged
    (sig : Z -> level) (sched : list (Z * bool)) (w : World)
    (cur : level) (s : State) :
  fst (loop cur false s) = fst (loop cur true s) /\
  sent (snd (loop cur false s)) = sent (snd (loop cur true s)) /\
  delayed (snd (loop cur false s)) = delayed (snd (loop cur true s)) /\
  (forall ok ok',
      sent (snd (loop LOW ok (fst (loop HIGH ok' (fst (loop cur false s)))))) =
      Some (format_message (u32 (msg_count (fst (loop cur false s)) + 1)))) /\
  (let r1 := run sig sched w in
   let r2 := run sig (map (fun p => (fst p, true)) sched) w in
   w_now r1 = w_now r2 /\
   w_state r1 = w_state r2 /\
   map (fun r => (sr_time r, sr_msg r)) (w_log r1) =
   map (fun r => (sr_time r, sr_msg r)) (w_log r2)).
Proof.
  assert (Hsame : forall ok, fst (loop cur ok s) = fst (loop cur true s) /\
                             sent (snd (loop cur ok s)) = sent (snd (loop cur true s)) /\
                             delayed (snd (loop cur ok s)) = delayed (snd (loop cur true s))).
  { intros ok. unfold loop.
    destruct (level_eqb (lastButtonState s) HIGH && level_eqb cur LOW);
      repeat split. }
  destruct (Hsame false) as (H1 & H2 & H3).
  split; [exact H1 |]. split; [exact H2 |]. split; [exact H3 |]. split.
  - intros ok ok'.
    rewrite (loop_no_press HIGH ok' _ (or_intror eq_refl)). cbn [fst].
    rewrite loop_press by reflexivity. reflexivity.
  - apply run_ignores_send_results; reflexivity.
Qed.

(** A press whose send fails, a release, and a second press: message 2 goes
    out. *)
Example press_after_failed_send :
  map (fun r => (sr_time r, msg_seq (sr_msg r), sr_ok r))
    (w_log (run (fun t => if (t <? 100) || ((300 <=? t) && (t <? 400))
                          then LOW else HIGH)
              [(0, false); (50, true); (0, true)] (boot 0)))
  = [(0, 1, false); (300, 2, true)].
Proof. reflexivity. Qed.

End TransmitterClaims.

(** ** Runs of the receiver: frames and polls in any order *)

Section ReceiverRuns.

Import Receiver ReceiverRun.





(** What any number of polls leaves alone. *)
Lemma polls_frame (ts : list (Z * Z * Z)) :
  forall st : State,
    masters (polls ts st) = masters st /\
    esp_now_peers (polls ts st) = esp_now_peers st /\
    buzzer_timer (polls ts st) = buzzer_timer st /\
    (buzzer_active st = false ->
     buzzer_active (polls ts st) = false /\
     buzzer_pin (polls ts st) = buzzer_pin st).
Proof.
  induction ts as [|[[now d1] d2] ts IH]; intros st.
  - cbn. auto.
  - unfold polls. cbn [fold_left fst snd]. fold (polls ts (loop now d1 d2 st)).
    destruct (loop_buzzer_fields now d1 d2 st) as (Ea & Ep & Et & Em & Epe).
    destruct (IH (loop now d1 d2 st)) as (Hm & Hp & Ht & Hoff).
    rewrite Hm, Hp, Ht, Em, Epe, Et.
    split; [reflexivity |]. split; [reflexivity |]. split; [reflexivity |].
    intros Hst. rewrite Hst in Ea, Ep. cbn [andb] in Ea, Ep.
    destruct (Hoff Ea) as [Hoff1 Hoff2].
    split; [exact Hoff1 | rewrite Hoff2; exact Ep].
Qed.

(** X2.  Polling alone never starts the buzzer and never touches the
    registry: any number of iterations of [loop] leaves [masters], the
    library's peer table and [buzzer_timer] as they were, and a buzzer that is
    off stays off with the pin unchanged. *)
Theorem polls_never_start_the_buzzer (ts : list (Z * Z * Z)) (st : State) :
  masters (polls ts st) = masters st /\
  esp_now_peers (polls ts st) = esp_now_peers st /\
  buzzer_timer (polls ts st) = buzzer_timer st /\
  (buzzer_active (polls ts st) = true -> buzzer_active st = true) /\
  (buzzer_active st = false -> buzzer_pin (polls ts st) = buzzer_pin st).
Proof.
  destruct (polls_frame ts st) as (Hm & Hp & Ht & Hoff).
  repeat split; try assumption.
  - intros Hon. destruct (buzzer_active st) eqn:Hst; [reflexivity |].
    destruct (Hoff eq_refl) as [Hoff' _]. congruence.
  - intros Hst. apply (proj2 (Hoff Hst)).
Qed.

(** X3.  The registry only grows.  A run appends to [masters] and to the
    library's table the same peers, at most one per delivered frame, each
    built from the sender of an accepted broadcast frame of the run with the
    sketch's channel, the station interface and no key; nothing is ever
    removed or reordered. *)
Theorem registry_only_grows (es : list Event) (st : State) :
  exists added,
    masters (run es st) = masters st ++ added /\
    esp_now_peers (run es st) = esp_now_peers st ++ added /\
    (List.length added <= List.length (deliveries es))%nat /\
    Forall (fun p =>
              exists f, In f (deliveries es) /\
                        p = master_of (src_addr (fr_info f)) /\
                        des_addr (fr_info f) = BROADCAST_ADDR /\
                        fr_accepted f = true) added.
Proof.
  revert st. induction es as [|e es IH]; intros st.
  - exists []. cbn. rewrite !app_nil_r. repeat split; auto.
  - unfold run. cbn [fold_left]. fold (run es (step e st)).
    destruct (IH (step e st)) as (added & Hm & Hp & Hlen & Hall).
    destruct e as [f | now now_dbg now_set]; cbn [step deliveries] in *.
    + destruct (dispatch_registry f st) as [Em Ep].
      fold (master_of (src_addr (fr_info f))) in Em, Ep.
      destruct (negb (known (src_addr (fr_info f)) (esp_now_peers st))
                && mac_eqb (des_addr (fr_info f)) BROADCAST_ADDR
                && fr_accepted f) eqn:Hgrow.
      * apply andb_prop in Hgrow as [Hgrow Hacc].
        apply andb_prop in Hgrow as [_ Hdes]. apply mac_eqb_eq in Hdes.
        exists (master_of (src_addr (fr_info f)) :: added).
        rewrite Hm, Hp, Em, Ep, <- !app_assoc. cbn [app List.length].
        repeat split; [lia |].
        constructor.
        -- exists f. cbn. auto.
        -- eapply Forall_impl; [| exact Hall].
           intros p (g & Hin & Hrest). exists g. cbn. auto.
      * exists added. rewrite Hm, Hp, Em, Ep. cbn [List.length].
        repeat split; [lia |].
        eapply Forall_impl; [| exact Hall].
        intros p (g & Hin & Hrest). exists g. cbn. auto.
    + destruct (loop_buzzer_fields now now_dbg now_set st) as (_ & _ & _ & Em & Ep).
      exists added. rewrite Hm, Hp, Em, Ep. auto.
Qed.

(** X4.  From boot to silence.  The first accepted broadcast of a sender is
    stored as the only master, drives the pin high and starts the timer at
    its arrival; polls up to [BUZZER_DURATION] later leave the pin high; and
    once a poll beyond that has run, the pin is low and stays low through any
    further polls, the master still registered. *)
Theorem first_broadcast_registers_and_buzzes
    (a : mac) (data : list byte) (len t : Z) :
  let f := {| fr_info := {| src_addr := a; des_addr := BROADCAST_ADDR |};
              fr_data := data; fr_len := len;
              fr_accepted := true; fr_now := t |} in
  let st := dispatch f setup in
  masters st = [master_of a] /\
  esp_now_peers st = [master_of a] /\
  buzzer_active st = true /\
  buzzer_pin st = HIGH /\
  buzzer_timer st = t /\
  forall ts,
    Forall (fun p => u32 (fst (fst p) - t) <= BUZZER_DURATION) ts ->
    buzzer_pin (polls ts st) = HIGH /\
    forall now now_dbg now_set ts',
      BUZZER_DURATION < u32 (now - t) ->
      let st' := polls ts' (loop now now_dbg now_set (polls ts st)) in
      buzzer_pin st' = LOW /\
      buzzer_active st' = false /\
      masters st' = [master_of a].
Proof.
  intros f st.
  assert (Hst : st = {| buzzer_timer := t; buzzer_active := true;
                        masters := [master_of a]; buzzer_pin := HIGH;
                        last_debug := 0; esp_now_peers := [master_of a] |})
    by reflexivity.
  do 5 (split; [rewrite Hst; reflexivity |]).
  intros ts Hts.
  assert (Hall : Forall (fun p => u32 (fst (fst p) - buzzer_timer st)
                                  <= BUZZER_DURATION) ts)
    by (rewrite Hst; exact Hts).
  destruct (polls_keep_active ts st) as (Ha & Hp & Ht);
    [rewrite Hst; reflexivity .. | exact Hall |].
  split; [exact Hp |].
  intros now now_dbg now_set ts' Hlate st'.
  destruct (loop_switches_off now now_dbg now_set (polls ts st) Ha) as (Hoff & Hlow);
    [rewrite Ht, Hst; exact Hlate |].
  destruct (polls_frame ts' (loop now now_dbg now_set (polls ts st)))
    as (Hm & _ & _ & Hstay).
  destruct (Hstay Hoff) as [Hoff' Hpin].
  destruct (loop_buzzer_fields now now_dbg now_set (polls ts st))
    as (_ & _ & _ & Hm' & _).
  destruct (polls_frame ts st) as (Hm'' & _).
  unfold st'. split; [rewrite Hpin; exact Hlow |]. split; [exact Hoff' |].
  rewrite Hm, Hm', Hm'', Hst. reflexivity.
Qed.

(** X5.  Registration is what makes a sender known.  After an accepted
    broadcast from an unknown sender the library's table knows that sender
    and no address it did not know before; so any later frame of the same
    sender, broadcast or not, goes to [onReceive] and adds nothing to
    [masters]. *)
Theorem registered_master_goes_to_onReceive (f f' : Frame) (st : State) :
  known (src_addr (fr_info f)) (esp_now_peers st) = false ->
  des_addr (fr_info f) = BROADCAST_ADDR ->
  fr_accepted f = true ->
  src_addr (fr_info f') = src_addr (fr_info f) ->
  let st1 := dispatch f st in
  (forall a, known a (esp_now_peers st1) =
             known a (esp_now_peers st) || mac_eqb (src_addr (fr_info f)) a) /\
  dispatch f' st1 =
    onReceive (fr_data f') (fr_len f')
      (mac_eqb (des_addr (fr_info f')) BROADCAST_ADDR) (fr_now f') st1 /\
  masters (dispatch f' st1) = masters st ++ [master_of (src_addr (fr_info f))].
Proof.
  intros Hunknown Hdes Hacc Hsrc st1.
  destruct (dispatch_registry f st) as [Em Ep].
  fold (master_of (src_addr (fr_info f))) in Em, Ep. fold st1 in Em, Ep.
  apply mac_eqb_eq in Hdes. rewrite Hunknown, Hdes, Hacc in Em, Ep.
  cbn [negb andb] in Em, Ep.
  assert (Hknown : forall a, known a (esp_now_peers st1) =
                             known a (esp_now_peers st)
                             || mac_eqb (src_addr (fr_info f)) a).
  { intros a. rewrite Ep, known_app. reflexivity. }
  assert (Hdisp : dispatch f' st1 =
                  onReceive (fr_data f') (fr_len f')
                    (mac_eqb (des_addr (fr_info f')) BROADCAST_ADDR)
                    (fr_now f') st1).
  { unfold dispatch. rewrite Hsrc, Hknown, mac_eqb_refl, orb_true_r. reflexivity. }
  split; [exact Hknown |]. split; [exact Hdisp |].
  rewrite Hdisp. cbn [onReceive masters]. exact Em.
Qed.

Lemma registered_master_goes_to_onReceive_unicast :
  let f := frame (broadcast_from master_A) true 0 in
  let f' := frame (unicast_from master_A) false 9 in
  known master_A (esp_now_peers setup) = false /\
  known master_A (esp_now_peers (dispatch f setup)) = true /\
  known master_B (esp_now_peers (dispatch f setup)) = false /\
  buzzer_timer (dispatch f' (dispatch f setup)) = 9 /\
  masters (dispatch f' (dispatch f setup)) = [master_of master_A].
Proof.
  intros f f'.
  destruct (registered_master_goes_to_onReceive f f' setup
              eq_refl eq_refl eq_refl eq_refl) as (Hk & Hd & Hm).
  split; [reflexivity |].
  split; [rewrite Hk; reflexivity |].
  split; [rewrite Hk; reflexivity |].
  split; [rewrite Hd; reflexivity | exact Hm].
Defined.

End ReceiverRuns.

(** ** Decimal digits of the message counter *)

Lemma string_of_uint_length (d : Decimal.uint) :
  String.length (NilEmpty.string_of_uint d) = Decimal.nb_digits d.
Proof. induction d; cbn; congruence. Qed.

(** Counting up from a multiple of ten. *)
Lemma to_lu_units (q : N) (k : nat) :
  DecimalPos.Unsigned.to_lu (10 * q + N.of_nat k) =
  Nat.iter k Decimal.Little.succ (DecimalPos.Unsigned.to_lu (10 * q)).
Proof.
  induction k as [|k IH].
  - cbn [Nat.iter N.of_nat]. now rewrite N.add_0_r.
  - rewrite Nnat.Nat2N.inj_succ, N.add_succ_r,
      DecimalPos.Unsigned.to_lu_succ, IH.
    reflexivity.
Qed.

(** Appending a decimal digit to a non-zero number adds one digit. *)
Lemma to_lu_digit (q r : N) :
  (0 < q)%N -> (r < 10)%N ->
  Decimal.nb_digits (DecimalPos.Unsigned.to_lu (10 * q + r)) =
  S (Decimal.nb_digits (DecimalPos.Unsigned.to_lu q)).
Proof.
  intros Hq Hr.
  destruct q as [|p]; [lia |].
  rewrite <- (Nnat.N2Nat.id r), to_lu_units,
    DecimalPos.Unsigned.to_ldec_tenfold.
  assert (Hk : (N.to_nat r < 10)%nat) by lia.
  revert Hk. generalize (N.to_nat r) as k. intros k Hk.
  do 10 (destruct k as [|k]; [reflexivity |]). lia.
Qed.

Lemma one_digit (n : N) :
  (n < 10)%N -> Decimal.nb_digits (DecimalPos.Unsigned.to_lu n) = 1%nat.
Proof.
  intros Hn. rewrite <- (Nnat.N2Nat.id n).
  assert (Hk : (N.to_nat n < 10)%nat) by lia.
  revert Hk. generalize (N.to_nat n) as k. intros k Hk.
  do 10 (destruct k as [|k]; [reflexivity |]). lia.
Qed.

(** A number below [10^(k+1)] has at most [k+1] decimal digits. *)
Lemma to_lu_digits_bound (k : nat) :
  forall n : N,
    (n < 10 ^ N.of_nat (S k))%N ->
    (Decimal.nb_digits (DecimalPos.Unsigned.to_lu n) <= S k)%nat.
Proof.
  induction k as [|k IH]; intros n Hn.
  - change (10 ^ N.of_nat 1)%N with 10%N in Hn. rewrite (one_digit n Hn). lia.
  - destruct (N.ltb_spec n 10) as [Hsmall | Hbig].
    + rewrite (one_digit n Hsmall). lia.
    + pose proof (N.div_mod n 10 ltac:(discriminate)) as Hdm.
      pose proof (N.mod_lt n 10 ltac:(discriminate)) as Hr.
      assert (Hq : (0 < n / 10)%N) by (apply N.div_str_pos; lia).
      assert (Hqb : (n / 10 < 10 ^ N.of_nat (S k))%N).
      { apply N.Div0.div_lt_upper_bound.
        rewrite <- N.pow_succ_r', <- Nnat.Nat2N.inj_succ. exact Hn. }
      rewrite Hdm, (to_lu_digit _ _ Hq Hr).
      specialize (IH _ Hqb). lia.
Qed.

Lemma to_uint_digits (n : N) :
  Decimal.nb_digits (N.to_uint n) =
  Decimal.nb_digits (DecimalPos.Unsigned.to_lu n).
Proof.
  destruct n as [|p]; [reflexivity |].
  cbn [N.to_uint DecimalPos.Unsigned.to_lu]. unfold Pos.to_uint.
  apply DecimalFacts.nb_digits_rev.
Qed.

(** The text of a message for a 32-bit counter: 17 characters and at most
    ten digits. *)
Lemma format_message_length (n : Z) :
  0 <= n < ULONG_RANGE ->
  (18 <= String.length (Transmitter.msg_text (Transmitter.format_message n)) <= 27)%nat.
Proof.
  intros Hn. cbn [Transmitter.format_message Transmitter.msg_text].
  cbn [append String.length].
  rewrite string_of_uint_length, to_uint_digits.
  assert (Hub : (Decimal.nb_digits (DecimalPos.Unsigned.to_lu (Z.to_N n)) <= 10)%nat).
  { apply (to_lu_digits_bound 9).
    change (10 ^ N.of_nat 10)%N with 10000000000%N.
    unfold ULONG_RANGE in Hn. change (2 ^ 32) with 4294967296 in Hn. lia. }
  assert (Hlb : Decimal.nb_digits (DecimalPos.Unsigned.to_lu (Z.to_N n)) <> 0%nat).
  { rewrite <- to_uint_digits. intros H0.
    apply DecimalFacts.nb_digits_0 in H0.
    destruct (Z.to_N n) as [|p]; [discriminate H0 |].
    exact (DecimalPos.Unsigned.to_uint_nonnil p H0). }
  lia.
Qed.

(** Different counters give different texts. *)
Lemma format_message_text_inj (n m : Z) :
  0 <= n -> 0 <= m ->
  Transmitter.msg_text (Transmitter.format_message n) =
  Transmitter.msg_text (Transmitter.format_message m) ->
  n = m.
Proof.
  intros Hn Hm H. cbn [Transmitter.format_message Transmitter.msg_text] in H.
  cbn [append] in H. injection H as H.
  assert (Hd : N.to_uint (Z.to_N n) = N.to_uint (Z.to_N m)).
  { pose proof (NilEmpty.usu (N.to_uint (Z.to_N n))) as H1.
    rewrite H, NilEmpty.usu in H1. now injection H1. }
  apply DecimalN.Unsigned.to_uint_inj in Hd. lia.
Qed.

(** ** Runs of the transmitter *)

Section TransmitterRuns.

Import Transmitter.

Variable sig : Z -> level.

(** While the button is held a run sends nothing more. *)
Lemma run_held (sched : list (Z * bool)) :
  Forall (fun p => 0 <= fst p) sched ->
  forall w : World,
    (forall t, w_now w <= t -> sig t = LOW) ->
    lastButtonState (w_state w) = LOW ->
    w_log (run sig sched w) = w_log w.
Proof.
  induction sched as [|[gap ok] sched IH]; intros Hgaps w Hheld Hlast.
  - reflexivity.
  - inversion Hgaps as [|? ? Hgap Hrest]; subst. cbn [fst] in Hgap.
    cbn [run]. rewrite (iterate_no_press sig gap ok w (or_introl Hlast)).
    rewrite IH; [reflexivity | exact Hrest | |].
    + cbn [w_now]. intros t Ht. apply Hheld. lia.
    + cbn [w_state lastButtonState]. apply Hheld. lia.
Qed.

(** While the button is released a run only lets time pass. *)
Lemma run_idle (sched : list (Z * bool)) :
  Forall (fun p => 0 <= fst p) sched ->
  forall w : World,
    (forall t, w_now w <= t -> sig t = HIGH) ->
    lastButtonState (w_state w) = HIGH ->
    run sig sched w =
    {| w_now := w_now w + total_gap sched;
       w_state := w_state w;
       w_log := w_log w |}.
Proof.
  induction sched as [|[gap ok] sched IH]; intros Hgaps w Hidle Hlast.
  - cbn. rewrite Z.add_0_r. destruct w; reflexivity.
  - inversion Hgaps as [|? ? Hgap Hrest]; subst. cbn [fst] in Hgap.
    assert (Hcur : sig (w_now w) = HIGH) by (apply Hidle; lia).
    cbn [run]. rewrite (iterate_no_press sig gap ok w (or_intror Hcur)).
    rewrite IH; [| exact Hrest | |].
    + cbn [w_now w_state w_log total_gap fold_right fst].
      fold (total_gap sched). rewrite Hcur.
      destruct (w_state w) as [c l] eqn:Es. cbn in Hlast. subst l.
      cbn. f_equal. lia.
    + cbn [w_now]. intros t Ht. apply Hidle. lia.
    + cbn [w_state lastButtonState]. exact Hcur.
Qed.

(** Every message of a run is the formatted text of its own counter. *)
Lemma run_log_formatted (sched : list (Z * bool)) :
  forall w : World,
    Forall (fun r => sr_msg r = format_message (msg_seq (sr_msg r))) (w_log w) ->
    Forall (fun r => sr_msg r = format_message (msg_seq (sr_msg r)))
      (w_log (run sig sched w)).
Proof.
  induction sched as [|[gap ok] sched IH]; intros w Hw.
  - exact Hw.
  - cbn [run]. apply IH.
    destruct (iterate_cases sig gap ok w) as [[Hl Hc] | Hno].
    + rewrite (iterate_press sig gap ok w Hl Hc). cbn [w_log].
      apply Forall_app. split; [exact Hw |].
      constructor; [reflexivity | constructor].
    + rewrite (iterate_no_press sig gap ok w Hno). exact Hw.
Qed.

(** The time a run takes: its gaps, and one hold per message. *)
Lemma run_duration (sched : list (Z * bool)) :
  forall w : World,
    w_now (run sig sched w) =
    w_now w + total_gap sched
    + DEBOUNCE_DELAY * (Z.of_nat (List.length (w_log (run sig sched w)))
                        - Z.of_nat (List.length (w_log w))).
Proof.
  induction sched as [|[gap ok] sched IH]; intros w.
  - cbn [run total_gap fold_right]. lia.
  - cbn [run total_gap fold_right fst]. fold (total_gap sched).
    rewrite IH.
    destruct (iterate_cases sig gap ok w) as [[Hl Hc] | Hno].
    + rewrite (iterate_press sig gap ok w Hl Hc). cbn [w_now w_log].
      rewrite length_app. cbn [List.length]. lia.
    + rewrite (iterate_no_press sig gap ok w Hno). cbn [w_now w_log]. lia.
Qed.

End TransmitterRuns.

Section TransmitterExtras.

Import Transmitter.

(** X6.  Successive send attempts of any run are at least the hold time of
    250 ms apart, whatever the input does. *)
Theorem sends_at_least_hold_apart
    (sig : Z -> level) (sched : list (Z * bool)) (t0 : Z) :
  Forall (fun p => 0 <= fst p) sched ->
  ForallOrdPairs (fun a b => sr_time a + DEBOUNCE_DELAY <= sr_time b)
    (w_log (run sig sched (boot t0))).
Proof.
  intros Hgaps. apply sends_are_spaced; [exact Hgaps | constructor | constructor].
Qed.

Lemma sends_at_least_hold_apart_two_presses :
  let sig := fun t => if (t <? 100) || ((300 <=? t) && (t <? 400))
                      then LOW else HIGH in
  let sched := [(0, true); (50, true); (0, false); (0, true)] in
  Forall (fun p : Z * bool => 0 <= fst p) sched /\
  map sr_time (w_log (run sig sched (boot 0))) = [0; 300] /\
  ForallOrdPairs (fun a b => sr_time a + DEBOUNCE_DELAY <= sr_time b)
    (w_log (run sig sched (boot 0))).
Proof.
  intros sig sched.
  assert (Hgaps : Forall (fun p : Z * bool => 0 <= fst p) sched)
    by (repeat constructor; cbn; discriminate).
  split; [exact Hgaps |]. split; [reflexivity |].
  exact (sends_at_least_hold_apart sig sched 0 Hgaps).
Defined.

(** X7.  The sketch sends on the press, not on the level: a button that is
    held from boot on gives one message, at the first iteration, however long
    it is held. *)
Theorem held_button_sends_once
    (sig : Z -> level) (sched : list (Z * bool)) (t0 : Z) :
  (forall t, t0 <= t -> sig t = LOW) ->
  Forall (fun p => 0 <= fst p) sched ->
  sched <> [] ->
  map (fun r => (sr_time r, sr_msg r)) (w_log (run sig sched (boot t0))) =
  [(t0, format_message 1)].
Proof.
  intros Hheld Hgaps Hne.
  destruct sched as [|[gap ok] sched]; [congruence |].
  inversion Hgaps as [|? ? Hgap Hrest]; subst. cbn [fst] in Hgap.
  cbn [run].
  rewrite (iterate_press sig gap ok (boot t0) eq_refl (Hheld t0 (Z.le_refl t0))).
  rewrite run_held; [reflexivity | exact Hrest | | reflexivity].
  cbn [w_now boot]. unfold DEBOUNCE_DELAY. intros t Ht. apply Hheld. lia.
Qed.

Lemma held_button_sends_once_for_a_minute :
  let sched := [(0, true); (10000, true); (20000, true); (30000, true)] in
  map (fun r => (sr_time r, msg_seq (sr_msg r)))
    (w_log (run (fun _ => LOW) sched (boot 5))) = [(5, 1)].
Proof.
  intros sched.
  assert (Hgaps : Forall (fun p : Z * bool => 0 <= fst p) sched)
    by (repeat constructor; cbn; discriminate).
  assert (Hne : sched <> []) by discriminate.
  pose proof (held_button_sends_once (fun _ => LOW) sched 5
                (fun _ _ => eq_refl) Hgaps Hne) as H.
  apply (f_equal (map (fun p : Z * Message => (fst p, msg_seq (snd p))))) in H.
  rewrite map_map in H. exact H.
Defined.

(** X8.  Without a press nothing happens: while the input stays high a run
    sends nothing, leaves the counter alone and only lets the time of its
    gaps pass. *)
Theorem idle_button_sends_nothing
    (sig : Z -> level) (sched : list (Z * bool)) (t0 : Z) :
  (forall t, t0 <= t -> sig t = HIGH) ->
  Forall (fun p => 0 <= fst p) sched ->
  run sig sched (boot t0) =
  {| w_now := t0 + total_gap sched; w_state := init; w_log := [] |}.
Proof.
  intros Hidle Hgaps.
  apply (run_idle sig sched Hgaps (boot t0)); [exact Hidle | reflexivity].
Qed.

Lemma idle_button_sends_nothing_for_a_while :
  run (fun _ => HIGH) [(1, true); (2, false); (3, true)] (boot 0) =
  {| w_now := 6; w_state := init; w_log := [] |}.
Proof.
  assert (Hgaps : Forall (fun p : Z * bool => 0 <= fst p)
                    [(1, true); (2, false); (3, true)])
    by (repeat constructor; cbn; discriminate).
  exact (idle_button_sends_nothing (fun _ => HIGH)
           [(1, true); (2, false); (3, true)] 0 (fun _ _ => eq_refl) Hgaps).
Defined.

(** X9.  The time a run takes is the sum of its gaps plus 250 ms of blocking
    for every message it sent: [loop] is away from the button for exactly
    one hold per press. *)
Theorem run_takes_one_hold_per_message
    (sig : Z -> level) (sched : list (Z * bool)) (t0 : Z) :
  w_now (run sig sched (boot t0)) =
  t0 + total_gap sched
  + DEBOUNCE_DELAY * Z.of_nat (List.length (w_log (run sig sched (boot t0)))).
Proof.
  rewrite (run_duration sig sched (boot t0)). cbn [boot w_now w_log List.length].
  f_equal. f_equal. lia.
Qed.

(** X10.  The text always fits the buffer.  Whatever the counter, the text
    [snprintf] is asked to write has between 18 and 27 characters, so with
    its terminating zero it fits the 32 bytes of [data] and is never cut. *)
Theorem message_text_fits_buffer
    (currentButtonState : level) (send_ok : bool) (s : State) (m : Message) :
  sent (snd (loop currentButtonState send_ok s)) = Some m ->
  (18 <= String.length (msg_text m) <= 27)%nat /\
  Z.of_nat (String.length (msg_text m)) + 1 <= msg_len m.
Proof.
  unfold loop.
  destruct (level_eqb (lastButtonState s) HIGH && level_eqb currentButtonState LOW);
    cbn [snd sent]; [| discriminate].
  intros H. injection H as <-.
  pose proof (format_message_length (u32 (msg_count s + 1)) (u32_range _)) as Hlen.
  split; [exact Hlen |]. cbn [msg_len format_message]. lia.
Qed.

Lemma message_text_fits_buffer_at_last_counter :
  let s := {| msg_count := ULONG_RANGE - 2; lastButtonState := HIGH |} in
  let m := format_message (ULONG_RANGE - 1) in
  sent (snd (loop LOW true s)) = Some m /\
  msg_text m = "Button Pressed! #4294967295"%string /\
  String.length (msg_text m) = 27%nat /\
  Z.of_nat (String.length (msg_text m)) + 1 <= msg_len m.
Proof.
  intros s m.
  assert (Hsent : sent (snd (loop LOW true s)) = Some m) by reflexivity.
  destruct (message_text_fits_buffer LOW true s m Hsent) as [_ Hfit].
  split; [exact Hsent |]. split; [reflexivity |]. split; [reflexivity | exact Hfit].
Defined.

(** X11.  Until the counter wraps, no two messages of a run carry the same
    text: each text names its own press. *)
Theorem message_texts_are_distinct
    (sig : Z -> level) (sched : list (Z * bool)) (t0 : Z) :
  Z.of_nat (List.length (w_log (run sig sched (boot t0)))) < ULONG_RANGE ->
  NoDup (map (fun r => msg_text (sr_msg r)) (w_log (run sig sched (boot t0)))).
Proof.
  intros Hfew.
  set (w := run sig sched (boot t0)) in *.
  destruct (run_counters sig sched (boot t0)) as (later & Hlog & Hseq & _).
  fold w in Hlog. cbn [boot w_log w_state init msg_count app] in Hlog, Hseq.
  subst later.
  assert (Hfmt : Forall (fun r => sr_msg r = format_message (msg_seq (sr_msg r)))
                   (w_log w)).
  { apply run_log_formatted. constructor. }
  assert (Htexts : map (fun r => msg_text (sr_msg r)) (w_log w) =
                   map (fun k => msg_text (format_message (Z.of_nat k)))
                       (seq 1 (List.length (w_log w)))).
  { transitivity (map (fun c => msg_text (format_message c))
                      (map (fun r => msg_seq (sr_msg r)) (w_log w))).
    - rewrite map_map. apply map_ext_in. intros r Hr.
      rewrite Forall_forall in Hfmt. now rewrite <- (Hfmt r Hr).
    - rewrite Hseq, map_map. apply map_ext_in. intros k Hk.
      apply in_seq in Hk. cbn [Z.add]. rewrite u32_small; [reflexivity | lia]. }
  rewrite Htexts.
  apply NoDup_map_NoDup_ForallPairs; [| apply seq_NoDup].
  intros j k _ _ Heq.
  apply format_message_text_inj in Heq; lia.
Qed.

Lemma message_texts_are_distinct_two_presses :
  let sig := fun t => if (t <? 100) || ((300 <=? t) && (t <? 400))
                      then LOW else HIGH in
  let sched := [(0, true); (50, true); (0, false); (0, true)] in
  map (fun r => msg_text (sr_msg r)) (w_log (run sig sched (boot 0))) =
    ["Button Pressed! #1"%string; "Button Pressed! #2"%string] /\
  NoDup (map (fun r => msg_text (sr_msg r)) (w_log (run sig sched (boot 0)))).
Proof.
  intros sig sched. split; [reflexivity |].
  apply (message_texts_are_distinct sig sched 0). reflexivity.
Defined.

End TransmitterExtras.

(** ** The buzzer over a series of polls *)

Section BuzzerOverPolls.

Import Receiver.

(** X12.  After any series of polls the buzzer is on exactly when it was on
    before and every poll of the series came within [BUZZER_DURATION] of the
    timer (in wrapped 32-bit time): the first poll beyond it switches the
    buzzer off for good, also when a later reading falls within the window
    again. *)
Theorem buzzer_on_iff_every_poll_in_time (ts : list (Z * Z * Z)) (st : State) :
  buzzer_active (polls ts st) =
  buzzer_active st
  && forallb (fun p => u32 (fst (fst p) - buzzer_timer st) <=? BUZZER_DURATION) ts.
Proof.
  revert st. induction ts as [|[[now d1] d2] ts IH]; intros st.
  - cbn. now rewrite andb_true_r.
  - unfold polls. cbn [fold_left fst snd forallb].
    fold (polls ts (loop now d1 d2 st)).
    destruct (loop_buzzer_fields now d1 d2 st) as (Ea & _ & Et & _).
    rewrite IH, Ea, Et, timed_out_spec, Z.ltb_antisym.
    destruct (buzzer_active st); cbn [andb negb]; [| reflexivity].
    now rewrite negb_involutive.
Qed.

(** Started at 0: polls at 400 and 1000 keep the buzzer on; a poll at 1001
    switches it off, and a reading of 200 after that does not bring it
    back. *)
Example buzzer_stays_off_after_late_poll :
  let st := onReceive [x42] 32 true 0 setup in
  buzzer_active (polls [(400, 0, 0); (1000, 0, 0)] st) = true /\
  buzzer_active (polls [(400, 0, 0); (1001, 0, 0); (200, 0, 0)] st) = false.
Proof. split; reflexivity. Qed.

End BuzzerOverPolls.
